(** * project-mozart: the audio player's crop-region editor

    A shallow embedding of [src/components/AudioPlayer/AudioPlayer.tsx] and
    of [src/components/AudioPlayer/config/waveConfig.js].

    The component keeps a React state object and drives a WaveSurfer engine
    through a handle.  Its handlers are embedded as computations over a
    [World]: the component state, the engine object behind the handle, and
    the ordered trace of everything a handler does outside its own state
    (engine method calls, the DOM write on a region's title, the alert). *)

From Stdlib Require Import ZArith List String Bool Lia.
From Stdlib Require Import Floats.SpecFloat.
Import ListNotations.

Set Implicit Arguments.

(* ================================================================== *)
(** ** JavaScript numbers *)

(** A JS [number] is an IEEE 754 binary64 value: 53 bits of precision and
    infinities at exponent 1024. *)
Module Number.

Definition number : Type := spec_float.

Definition prec : Z := 53.
Definition emax : Z := 1024.

(** The numeric literal [m * 2^e], rounded and put in canonical form. *)
Definition lit (m e : Z) : number := binary_normalize prec emax m e false.

Definition NaN : number := S754_nan.

(** [a - b] *)
Definition sub (a b : number) : number := SFsub prec emax a b.
(** [Math.abs(a)] *)
Definition abs (a : number) : number := SFabs a.
(** [a > b]: false as soon as one side is NaN. *)
Definition gt (a b : number) : bool := SFltb b a.
(** [a <= b]: false as soon as one side is NaN. *)
Definition le (a b : number) : bool := SFleb a b.
(** [a === b] on numbers: NaN equals nothing, [+0] equals [-0]. *)
Definition strict_eq (a b : number) : bool := SFeqb a b.
(** [a !== b] *)
Definition strict_neq (a b : number) : bool := negb (strict_eq a b).

Declare Scope js_scope.
Delimit Scope js_scope with js.
Bind Scope js_scope with number.
Infix "-" := sub : js_scope.
Infix ">?" := gt : js_scope.
Infix "<=?" := le : js_scope.
Infix "===" := strict_eq (at level 70, no associativity) : js_scope.
Infix "!==" := strict_neq (at level 70, no associativity) : js_scope.

End Number.
Import Number.
Open Scope js_scope.

(* ================================================================== *)
(** ** config/waveConfig.js *)

Module waveConfig.

(** "Number of seconds to skip with the 'skipForward()' and
    'skipBackward()' methods." *)
Definition skipLength : number := lit 5 0.

Definition barWidth : number := lit 2 0.
Definition barGap : number := lit 2 0.
Definition cursorWidth : number := lit 0 0.
Definition waveColor : string := "#525353".
Definition progressColor : string := "#232526".

End waveConfig.

(* ================================================================== *)
(** ** The data model *)

(** The options object handed to [addRegion], which is also what the
    engine keeps for the region. *)
Record Region : Type := {
  start : number;
  end_ : number;
  color : string
}.

(** The [params] of a region event: the bounds of the dragged region. *)
Record RegionParams : Type := {
  p_start : number;
  p_end : number
}.

(** The WaveSurfer object as the component sees it: the options it was
    created with, what [getDuration] and [getCurrentTime] answer, and the
    regions its plugin holds.  Where the playhead goes on a transport call
    is the engine's business; the calls themselves are kept in the trace. *)
Record WaveSurfer : Type := {
  ws_skipLength : number;
  ws_duration : number;
  ws_currentTime : number;
  ws_regions : list Region
}.

(** The reference stored in [state.waveSurfer].  One engine is created per
    mounted component, so there is one reference. *)
Inductive Handle : Type := TheWaveSurfer.

(** [type State] of the component. *)
Record State : Type := {
  isPlaying : bool;
  cutStart : number;
  originalCutStart : number;
  cutEnd : number;
  originalCutEnd : number;
  waveSurfer : option Handle;
  wasRegionChanged : bool
}.

(** One member of the object literal given to [this.setState]. *)
Inductive Field : Type :=
| set_isPlaying (b : bool)
| set_cutStart (n : number)
| set_originalCutStart (n : number)
| set_cutEnd (n : number)
| set_originalCutEnd (n : number)
| set_waveSurfer (h : Handle)
| set_wasRegionChanged (b : bool).

(** A method call on the engine handle (or on a region it returned). *)
Inductive Call : Type :=
| on (event : string)
| loadBlob
| destroy
| getDuration
| getCurrentTime
| addRegion (r : Region)
| clearRegions
| play (from : option number)
| pause
| stop
| skipForward
| skipBackward
| skip (offset : number)
| region_play (r : Region).

(** What a handler does that is not a state update. *)
Inductive Effect : Type :=
| Engine (c : Call)
| ClearTitle
| Alert (msg : string).

Record World : Type := {
  state : State;
  engine : WaveSurfer;
  trace : list Effect
}.

(* ================================================================== *)
(** ** Handlers as computations over the world *)

Definition M (A : Type) : Type := World -> A * World.

Definition ret {A : Type} (a : A) : M A := fun w => (a, w).

Definition bind {A B : Type} (m : M A) (k : A -> M B) : M B :=
  fun w => let (a, w') := m w in k a w'.

Declare Scope handler_scope.
Delimit Scope handler_scope with handler.
Notation "x <- m ;; k" := (bind m (fun x => k))
  (at level 61, m at next level, right associativity) : handler_scope.
Notation "m ;; k" := (bind m (fun _ => k))
  (at level 61, right associativity) : handler_scope.
Open Scope handler_scope.

(** Run a handler for its effect on the world. *)
Definition exec {A : Type} (m : M A) (w : World) : World := snd (m w).

(** [const { ... } = this.state] *)
Definition getState : M State := fun w => (state w, w).

Definition emit (e : Effect) : M unit :=
  fun w => (tt, {| state := state w; engine := engine w;
                   trace := trace w ++ [e] |}).

Definition modifyEngine (f : WaveSurfer -> WaveSurfer) : M unit :=
  fun w => (tt, {| state := state w; engine := f (engine w);
                   trace := trace w |}).

Definition readEngine {A : Type} (f : WaveSurfer -> A) : M A :=
  fun w => (f (engine w), w).

Definition assign (f : Field) (s : State) : State :=
  match f with
  | set_isPlaying b =>
      {| isPlaying := b; cutStart := cutStart s;
         originalCutStart := originalCutStart s; cutEnd := cutEnd s;
         originalCutEnd := originalCutEnd s; waveSurfer := waveSurfer s;
         wasRegionChanged := wasRegionChanged s |}
  | set_cutStart n =>
      {| isPlaying := isPlaying s; cutStart := n;
         originalCutStart := originalCutStart s; cutEnd := cutEnd s;
         originalCutEnd := originalCutEnd s; waveSurfer := waveSurfer s;
         wasRegionChanged := wasRegionChanged s |}
  | set_originalCutStart n =>
      {| isPlaying := isPlaying s; cutStart := cutStart s;
         originalCutStart := n; cutEnd := cutEnd s;
         originalCutEnd := originalCutEnd s; waveSurfer := waveSurfer s;
         wasRegionChanged := wasRegionChanged s |}
  | set_cutEnd n =>
      {| isPlaying := isPlaying s; cutStart := cutStart s;
         originalCutStart := originalCutStart s; cutEnd := n;
         originalCutEnd := originalCutEnd s; waveSurfer := waveSurfer s;
         wasRegionChanged := wasRegionChanged s |}
  | set_originalCutEnd n =>
      {| isPlaying := isPlaying s; cutStart := cutStart s;
         originalCutStart := originalCutStart s; cutEnd := cutEnd s;
         originalCutEnd := n; waveSurfer := waveSurfer s;
         wasRegionChanged := wasRegionChanged s |}
  | set_waveSurfer h =>
      {| isPlaying := isPlaying s; cutStart := cutStart s;
         originalCutStart := originalCutStart s; cutEnd := cutEnd s;
         originalCutEnd := originalCutEnd s; waveSurfer := Some h;
         wasRegionChanged := wasRegionChanged s |}
  | set_wasRegionChanged b =>
      {| isPlaying := isPlaying s; cutStart := cutStart s;
         originalCutStart := originalCutStart s; cutEnd := cutEnd s;
         originalCutEnd := originalCutEnd s; waveSurfer := waveSurfer s;
         wasRegionChanged := b |}
  end.

(** [this.setState({ ... })]: the given members are merged into the state,
    the others keep their value. *)
Definition setState (fs : list Field) : M unit :=
  fun w => (tt, {| state := fold_left (fun s f => assign f s) fs (state w);
                   engine := engine w; trace := trace w |}).

(** *** The engine's methods, as the component uses them

    Each call is appended to the trace.  Of the engine's own behaviour only
    the contract of its regions plugin is kept: [addRegion] adds the region
    to the ones held and returns it, [clearRegions] removes them all. *)

Module WS.

Definition call (c : Call) : M unit := emit (Engine c).

Definition on (h : Handle) (event : string) : M unit := call (on event).

Definition getDuration (h : Handle) : M number :=
  call getDuration ;; readEngine ws_duration.

Definition getCurrentTime (h : Handle) : M number :=
  call getCurrentTime ;; readEngine ws_currentTime.

(** The region is appended to the ones the plugin holds and returned. *)
Definition addRegion (h : Handle) (r : Region) : M Region :=
  call (addRegion r) ;;
  modifyEngine (fun e =>
    {| ws_skipLength := ws_skipLength e; ws_duration := ws_duration e;
       ws_currentTime := ws_currentTime e;
       ws_regions := ws_regions e ++ [r] |}) ;;
  ret r.

Definition clearRegions (h : Handle) : M unit :=
  call clearRegions ;;
  modifyEngine (fun e =>
    {| ws_skipLength := ws_skipLength e; ws_duration := ws_duration e;
       ws_currentTime := ws_currentTime e; ws_regions := [] |}).

Definition play (h : Handle) (from : option number) : M unit :=
  call (play from).
Definition pause (h : Handle) : M unit := call pause.
Definition stop (h : Handle) : M unit := call stop.
Definition skipForward (h : Handle) : M unit := call skipForward.
Definition skipBackward (h : Handle) : M unit := call skipBackward.
Definition skip (h : Handle) (offset : number) : M unit :=
  call (skip offset).
Definition destroy (h : Handle) : M unit := call destroy.
Definition loadBlob (h : Handle) : M unit := call loadBlob.

(** [region.play()] on a region returned by [addRegion]. *)
Definition regionPlay (r : Region) : M unit := call (region_play r).

End WS.

(* ================================================================== *)
(** ** AudioPlayer.tsx *)

Module AudioPlayer.

Definition REGION_COLOR : string := "rgba(0, 123, 255, 0.48)".

(** The state set by the constructor. *)
Definition initialState : State :=
  {| isPlaying := false;
     originalCutStart := NaN;
     originalCutEnd := NaN;
     cutStart := NaN;
     cutEnd := NaN;
     waveSurfer := None;
     wasRegionChanged := false |}.

(** [WaveSurfer.create({ container, ...waveConfig, plugins })] for a file
    that decodes to [d] seconds: the regions plugin starts empty. *)
Definition create (d : number) : WaveSurfer :=
  {| ws_skipLength := waveConfig.skipLength;
     ws_duration := d;
     ws_currentTime := lit 0 0;
     ws_regions := [] |}.

Definition componentDidMount : M unit :=
  WS.on TheWaveSurfer "ready" ;;
  WS.loadBlob TheWaveSurfer.

Definition componentWillUnmount : M unit :=
  s <- getState ;;
  match waveSurfer s with
  | None => ret tt
  | Some waveSurfer => WS.destroy waveSurfer
  end.

Definition onWaveSurferReady (waveSurfer : Handle) : M unit :=
  WS.on waveSurfer "region-created" ;;
  WS.on waveSurfer "region-updated" ;;
  WS.on waveSurfer "region-update-end" ;;
  duration <- WS.getDuration waveSurfer ;;
  let '(cutStart, cutEnd) :=
    if duration >? lit 40 0
    then (lit 20 0, duration - lit 20 0)
    else (lit 0 0, duration) in
  WS.addRegion waveSurfer
    {| start := cutStart; end_ := cutEnd; color := REGION_COLOR |} ;;
  setState [set_waveSurfer waveSurfer;
            set_cutStart cutStart;
            set_cutEnd cutEnd;
            set_originalCutStart cutStart;
            set_originalCutEnd cutEnd].

(** [params.element.attributes.title.value = ''] *)
Definition onCropRegionCreated : M unit := emit ClearTitle.

Definition recreateRegion (waveSurfer : Handle) (startTime endTime : number)
  : M Region :=
  WS.clearRegions waveSurfer ;;
  WS.addRegion waveSurfer
    {| start := startTime; end_ := endTime; color := REGION_COLOR |}.

Definition onCropRegionUpdated (params : RegionParams) : M unit :=
  s <- getState ;;
  match waveSurfer s with
  | None => ret tt
  | Some waveSurfer =>
      emit ClearTitle ;;
      if abs (p_start params - p_end params) >? lit 1 (-2)
      then ret tt
      else
        newRegion <- recreateRegion waveSurfer (cutStart s) (cutEnd s) ;;
        (if isPlaying s then WS.regionPlay newRegion else ret tt) ;;
        setState [set_waveSurfer waveSurfer]
  end.

Definition onCropRegionUpdateEnd (params : RegionParams) : M unit :=
  s <- getState ;;
  match waveSurfer s with
  | None => ret tt
  | Some waveSurfer =>
      let playFrom := lit 0 0 in
      playFrom <-
        (if p_end params !== cutEnd s
         then setState [set_cutEnd (p_end params)] ;; ret (p_end params)
         else ret playFrom) ;;
      playFrom <-
        (if p_start params !== cutStart s
         then setState [set_cutStart (p_start params)] ;;
              ret (p_start params)
         else ret playFrom) ;;
      WS.play waveSurfer (Some playFrom) ;;
      setState [set_isPlaying true;
                set_wasRegionChanged (playFrom !== lit 0 0)]
  end.

Definition handleClickTogglePlay : M unit :=
  s <- getState ;;
  match waveSurfer s with
  | None => ret tt
  | Some waveSurfer =>
      (if isPlaying s
       then WS.pause waveSurfer
       else WS.play waveSurfer None) ;;
      setState [set_isPlaying (negb (isPlaying s))]
  end.

Definition handleClickSkip (skipForwards : bool) : M unit :=
  s <- getState ;;
  match waveSurfer s with
  | None => ret tt
  | Some waveSurfer =>
      if skipForwards
      then WS.skipForward waveSurfer
      else WS.skipBackward waveSurfer
  end.

Definition handleClickJump (jumpToEnd : bool) : M unit :=
  s <- getState ;;
  match waveSurfer s with
  | None => ret tt
  | Some waveSurfer =>
      if jumpToEnd
      then
        duration <- WS.getDuration waveSurfer ;;
        current <- WS.getCurrentTime waveSurfer ;;
        WS.skip waveSurfer (duration - current - lit 5 0) ;;
        WS.pause waveSurfer ;;
        WS.skipForward waveSurfer ;;
        setState [set_isPlaying false]
      else
        WS.stop waveSurfer ;;
        if isPlaying s then WS.play waveSurfer None else ret tt
  end.

Definition handleClickCut : M unit :=
  emit (Alert "Not yet implemented :(").

Definition handleClickCancel : M unit :=
  s <- getState ;;
  match waveSurfer s with
  | None => ret tt
  | Some waveSurfer =>
      recreateRegion waveSurfer (originalCutStart s) (originalCutEnd s) ;;
      WS.stop waveSurfer ;;
      setState [set_waveSurfer waveSurfer;
                set_isPlaying false;
                set_cutStart (originalCutStart s);
                set_cutEnd (originalCutEnd s);
                set_wasRegionChanged false]
  end.

(** The icons of the button row in [render]. *)
Inductive Button : Type :=
| CutButton
| JumpToStartButton
| RewindButton
| TogglePlayButton
| FastForwardButton
| JumpToEndButton
| CancelButton.

(** The [onClick] each icon is rendered with.  Cut and cancel get theirs
    only while [wasRegionChanged] is set. *)
Definition onClick (s : State) (b : Button) : option (M unit) :=
  match b with
  | CutButton =>
      if wasRegionChanged s then Some handleClickCut else None
  | JumpToStartButton => Some (handleClickJump false)
  | RewindButton => Some (handleClickSkip false)
  | TogglePlayButton => Some handleClickTogglePlay
  | FastForwardButton => Some (handleClickSkip true)
  | JumpToEndButton => Some (handleClickJump true)
  | CancelButton =>
      if wasRegionChanged s then Some handleClickCancel else None
  end.

(** What [render] returns, as far as it depends on the state: the loading
    overlay, the class of the waveform row, and the class, tooltip and
    click handler of the icons whose look follows the state. *)
Record View : Type := {
  overlayActive : bool;
  waveformRowClass : string;
  cutIconClass : string;
  cutOnClick : option (M unit);
  toggleIconClass : string;
  toggleTooltip : string;
  cancelIconClass : string;
  cancelOnClick : option (M unit)
}.

Definition render (s : State) : View :=
  let isLoading := match waveSurfer s with Some _ => false | None => true end in
  let toggleIcon :=
    ("fas fa-" ++ (if isPlaying s then "pause" else "play")
     ++ " mzt-btn-actions")%string in
  let tooltip := (if isPlaying s then "Pause" else "Play")%string in
  {| overlayActive := isLoading;
     waveformRowClass :=
       ("row mzt-row-waveform "
        ++ (if isLoading then "mzt-hidden" else EmptyString))%string;
     cutIconClass :=
       ("fas fa-cut mzt-btn-actions "
        ++ (if wasRegionChanged s then "success" else "disabled"))%string;
     cutOnClick := onClick s CutButton;
     toggleIconClass := toggleIcon;
     toggleTooltip := tooltip;
     cancelIconClass :=
       ("fas fa-ban mzt-btn-actions "
        ++ (if wasRegionChanged s then "error" else "disabled"))%string;
     cancelOnClick := onClick s CancelButton |}.

End AudioPlayer.
Import AudioPlayer.

(* ================================================================== *)
(** ** A session: one mounted player and what happens to it *)

(** What can reach the component once the engine is ready: the engine's
    region events, the clicks on the transport buttons, and the playhead
    moving inside the engine. *)
Inductive Event : Type :=
| RegionCreated
| RegionUpdated (params : RegionParams)
| RegionUpdateEnd (params : RegionParams)
| ClickTogglePlay
| ClickSkip (forwards : bool)
| ClickJump (toEnd : bool)
| ClickCut
| ClickCancel
| Playhead (t : number).

(** The engine moves the dragged region itself before it reports it. *)
Definition dragged (p : RegionParams) (e : WaveSurfer) : WaveSurfer :=
  {| ws_skipLength := ws_skipLength e; ws_duration := ws_duration e;
     ws_currentTime := ws_currentTime e;
     ws_regions :=
       map (fun r => {| start := p_start p; end_ := p_end p;
                        color := color r |}) (ws_regions e) |}.

Definition seeked (t : number) (e : WaveSurfer) : WaveSurfer :=
  {| ws_skipLength := ws_skipLength e; ws_duration := ws_duration e;
     ws_currentTime := t; ws_regions := ws_regions e |}.

Definition handle (ev : Event) : M unit :=
  match ev with
  | RegionCreated => onCropRegionCreated
  | RegionUpdated p => modifyEngine (dragged p) ;; onCropRegionUpdated p
  | RegionUpdateEnd p => modifyEngine (dragged p) ;; onCropRegionUpdateEnd p
  | ClickTogglePlay => handleClickTogglePlay
  | ClickSkip b => handleClickSkip b
  | ClickJump b => handleClickJump b
  | ClickCut => handleClickCut
  | ClickCancel => handleClickCancel
  | Playhead t => modifyEngine (seeked t)
  end.

Definition step (w : World) (ev : Event) : World := exec (handle ev) w.

Definition run (evs : list Event) (w : World) : World := fold_left step evs w.

(** The component right after mounting, for a file of [d] seconds. *)
Definition mounted (d : number) : World :=
  exec componentDidMount
       {| state := initialState; engine := create d; trace := [] |}.

(** The moment the engine reports ready. *)
Definition ready (d : number) : World :=
  exec (onWaveSurferReady TheWaveSurfer) (mounted d).

(** A state reachable after readiness. *)
Definition session (d : number) (evs : list Event) : World :=
  run evs (ready d).

Definition bounds (s : State) : number * number := (cutStart s, cutEnd s).
Definition originalBounds (s : State) : number * number :=
  (originalCutStart s, originalCutEnd s).

(* ================================================================== *)
(** ** Notions the stated properties are phrased with *)

(** The playback anchor of a finished drag, in the words of the design
    notes: the new start if the start edge moved, else the new end if the
    end edge moved, else 0. *)
Definition anchor (params : RegionParams) (s : State) : number :=
  if p_start params !== cutStart s then p_start params
  else if p_end params !== cutEnd s then p_end params
  else lit 0 0.

(** The zero-anchor ambiguity: the flag that tells, along a run, whether
    the last thing that set [wasRegionChanged] was a finished drag whose
    anchor resolved to 0.  A cancel clears it; nothing else touches it. *)
Definition zeroAnchor (ev : Event) (w : World) (g : bool) : bool :=
  match ev, waveSurfer (state w) with
  | RegionUpdateEnd p, Some _ => anchor p (state w) === lit 0 0
  | ClickCancel, Some _ => false
  | _, _ => g
  end.

Fixpoint ambiguous (evs : list Event) (w : World) (g : bool) : bool :=
  match evs with
  | [] => g
  | ev :: evs' => ambiguous evs' (step w ev) (zeroAnchor ev w g)
  end.

(** "wasRegionChanged is true iff the current bounds differ from the
    original bounds", outside the zero-anchor ambiguity. *)
Definition flag_iff_bounds_differ : Prop :=
  forall (d : number) (evs : list Event),
    ambiguous evs (ready d) false = false ->
    let s := state (session d evs) in
    wasRegionChanged s = true <-> bounds s <> originalBounds s.

(** The operations the user interface exposes. *)
Definition uiOperation (ev : Event) : bool :=
  match ev with
  | ClickTogglePlay | ClickSkip _ | ClickJump _ | ClickCut | ClickCancel =>
      true
  | RegionCreated | RegionUpdated _ | RegionUpdateEnd _ | Playhead _ =>
      false
  end.

(** "All operations are no-ops if the engine is not yet ready." *)
Definition noop_without_handle : Prop :=
  forall (ev : Event) (w : World),
    uiOperation ev = true ->
    waveSurfer (state w) = None ->
    step w ev = w.

(** Clear-then-add on a trace: every [addRegion] comes right after a
    [clearRegions].  [cleared] tells whether the call before the trace was
    one. *)
Fixpoint addsAfterClear (cleared : bool) (t : list Effect) : bool :=
  match t with
  | [] => true
  | Engine (addRegion _) :: t' => cleared && addsAfterClear false t'
  | Engine clearRegions :: t' => addsAfterClear true t'
  | _ :: t' => addsAfterClear false t'
  end.

(** "The engine holds exactly one region, because every path that creates
    a region clears all regions before adding one." *)
Definition one_region_by_clear_then_add : Prop :=
  forall (d : number) (evs : list Event),
    List.length (ws_regions (engine (session d evs))) = 1%nat /\
    addsAfterClear false (trace (session d evs)) = true.

(** The world a region event finds: the engine has moved the region. *)
Definition afterDrag (p : RegionParams) (w : World) : World :=
  {| state := state w; engine := dragged p (engine w); trace := trace w |}.

(** Outside the zero-anchor ambiguity, a cleared flag means the bounds are
    the original ones. *)
Definition flagSound (w : World) (g : bool) : Prop :=
  wasRegionChanged (state w) = false -> g = false ->
  bounds (state w) = originalBounds (state w).

(** The region the component draws over [[a, b]]. *)
Definition cropRegion (a b : number) : Region :=
  {| start := a; end_ := b; color := REGION_COLOR |}.

(* ================================================================== *)
(** ** Notions for the transport and the button row *)

Definition isNaN (a : number) : bool :=
  match a with
  | S754_nan => true
  | _ => false
  end.

(** A click on an icon of the button row as rendered from the current
    state: the icon's [onClick] runs if it has one. *)
Definition click (b : Button) : M unit :=
  s <- getState ;;
  match onClick s b with
  | Some f => f
  | None => ret tt
  end.

Definition clicks (bs : list Button) (w : World) : World :=
  fold_left (fun w b => exec (click b) w) bs w.

(** What the engine was last told about playback: [play] (on the engine or
    on a region) starts it, [pause] and [stop] halt it, the other effects
    say nothing about it. *)
Definition command (playing : bool) (e : Effect) : bool :=
  match e with
  | Engine (play _) | Engine (region_play _) => true
  | Engine pause | Engine stop => false
  | _ => playing
  end.

Definition commanded (t : list Effect) : bool := fold_left command t false.

Definition isAlert (e : Effect) : bool :=
  match e with
  | Alert _ => true
  | _ => false
  end.

Definition isCut (ev : Event) : bool :=
  match ev with
  | ClickCut => true
  | _ => false
  end.

(** The events that commit bounds: a finished drag and a cancel. *)
Definition commits (ev : Event) : bool :=
  match ev with
  | RegionUpdateEnd _ | ClickCancel => true
  | _ => false
  end.

Definition skipCall (forwards : bool) : Effect :=
  Engine (if forwards then skipForward else skipBackward).

(* ================================================================== *)
(** ** Facts about JS comparisons *)

Module NumberFacts.

Lemma compare_swap (a b : number) :
  SFcompare b a = option_map CompOpp (SFcompare a b).
Proof.
  destruct a as [sa|sa| |sa ma ea], b as [sb|sb| |sb mb eb]; simpl;
    try reflexivity;
    try (destruct sa; reflexivity);
    try (destruct sb; reflexivity);
    try (destruct sa, sb; reflexivity).
  f_equal.
  pose proof (Pos.compare_cont_antisym ma mb Eq) as Hm. simpl in Hm.
  rewrite (Z.compare_antisym ea eb), <- Hm.
  destruct sa, sb; try reflexivity;
    destruct (Z.compare ea eb); simpl; try reflexivity;
    destruct (Pos.compare_cont Eq ma mb); reflexivity.
Qed.

(** [a <= b] excludes [a > b]. *)
Lemma le_not_gt (a b : number) : (a <=? b) = true -> (a >? b) = false.
Proof.
  unfold le, gt, SFleb, SFltb. rewrite (compare_swap a b).
  destruct (SFcompare a b) as [[ | | ]|]; simpl; congruence.
Qed.

Lemma compare_refl (a : number) :
  isNaN a = false -> SFcompare a a = Some Eq.
Proof.
  destruct a as [sa|sa| |sa ma ea]; simpl; try discriminate; intros _;
    try reflexivity; try (destruct sa; reflexivity).
  rewrite Z.compare_refl, Pos.compare_cont_refl. destruct sa; reflexivity.
Qed.

(** [a === a] for every number but NaN. *)
Lemma strict_eq_refl (a : number) : isNaN a = false -> (a === a) = true.
Proof.
  intros H. unfold strict_eq, SFeqb. now rewrite (compare_refl a H).
Qed.

Lemma strict_eq_sym (a b : number) : (a === b) = (b === a).
Proof.
  unfold strict_eq, SFeqb. rewrite (compare_swap a b).
  destruct (SFcompare a b) as [[ | | ]|]; reflexivity.
Qed.

(** NaN is [!==] to everything, itself included. *)
Lemma strict_neq_NaN (a b : number) :
  isNaN a = true \/ isNaN b = true -> (a !== b) = true.
Proof.
  intros [H|H]; destruct a, b; try discriminate H; reflexivity.
Qed.

(** A difference with a NaN operand is NaN, and NaN is above nothing. *)
Lemma abs_sub_NaN_not_gt (a b c : number) :
  isNaN a = true \/ isNaN b = true -> (abs (a - b) >? c) = false.
Proof.
  intros [H|H]; destruct a, b; try discriminate H; destruct c; reflexivity.
Qed.

End NumberFacts.

(* ================================================================== *)
(** ** What each handler does *)

Arguments lit : simpl never.
Arguments sub : simpl never.
Arguments abs : simpl never.
Arguments gt : simpl never.
Arguments le : simpl never.
Arguments strict_eq : simpl never.
Arguments strict_neq : simpl never.

(** Unfold a handler down to the world it returns. *)
Ltac handler :=
  unfold exec, onCropRegionUpdated, onCropRegionUpdateEnd, onWaveSurferReady,
    onCropRegionCreated, handleClickTogglePlay, handleClickSkip,
    handleClickJump, handleClickCut, handleClickCancel, recreateRegion,
    componentDidMount, componentWillUnmount,
    WS.on, WS.getDuration, WS.getCurrentTime, WS.addRegion, WS.clearRegions,
    WS.play, WS.pause, WS.stop, WS.skipForward, WS.skipBackward, WS.skip,
    WS.destroy, WS.loadBlob, WS.regionPlay, WS.call,
    bind, ret, getState, emit, modifyEngine, readEngine, setState;
  cbn.

(** Merging the handle a state already holds changes nothing. *)
Lemma assign_same_handle (s : State) (h : Handle) :
  waveSurfer s = Some h -> assign (set_waveSurfer h) s = s.
Proof. destruct s; simpl; intros ->; reflexivity. Qed.

(** Name the parts of a world and of its state. *)
Ltac open_world w :=
  let s := fresh "s" in
  let e := fresh "e" in
  let t := fresh "t" in
  destruct w as [s e t];
  destruct s as [playing cs ocs ce oce hdl changed]; cbn in *; subst.

Lemma updated_collision (w : World) (h : Handle) (params : RegionParams) :
  waveSurfer (state w) = Some h ->
  (abs (p_start params - p_end params) >? lit 1 (-2)) = false ->
  exec (onCropRegionUpdated params) w =
  let r := cropRegion (cutStart (state w)) (cutEnd (state w)) in
  {| state := state w;
     engine := {| ws_skipLength := ws_skipLength (engine w);
                  ws_duration := ws_duration (engine w);
                  ws_currentTime := ws_currentTime (engine w);
                  ws_regions := [r] |};
     trace := (trace w ++ [ClearTitle; Engine clearRegions;
                           Engine (addRegion r)])
              ++ (if isPlaying (state w)
                  then [Engine (region_play r)] else []) |}.
Proof.
  intros Hready Hguard. handler. rewrite Hready. cbn. rewrite Hguard.
  open_world w.
  destruct playing; cbn; rewrite <- ?app_assoc; cbn;
    try rewrite app_nil_r; reflexivity.
Qed.

(** A drag that is in progress never touches the state, collision or not. *)
Lemma updated_keeps_state (w : World) (params : RegionParams) :
  state (exec (onCropRegionUpdated params) w) = state w.
Proof.
  handler. destruct (waveSurfer (state w)) as [h|] eqn:Hh; cbn; auto.
  destruct (abs (p_start params - p_end params) >? lit 1 (-2)); cbn; auto.
  open_world w. destruct playing; reflexivity.
Qed.

Lemma updateEnd_world (w : World) (h : Handle) (params : RegionParams) :
  waveSurfer (state w) = Some h ->
  exec (onCropRegionUpdateEnd params) w =
  let s := state w in
  {| state :=
       {| isPlaying := true;
          cutStart := if p_start params !== cutStart s
                      then p_start params else cutStart s;
          originalCutStart := originalCutStart s;
          cutEnd := if p_end params !== cutEnd s
                    then p_end params else cutEnd s;
          originalCutEnd := originalCutEnd s;
          waveSurfer := Some h;
          wasRegionChanged := anchor params s !== lit 0 0 |};
     engine := engine w;
     trace := trace w ++ [Engine (play (Some (anchor params s)))] |}.
Proof.
  intros Hready. handler. rewrite Hready. unfold anchor. open_world w.
  destruct (p_end params !== ce), (p_start params !== cs); reflexivity.
Qed.

Lemma cancel_world (w : World) (h : Handle) :
  waveSurfer (state w) = Some h ->
  exec handleClickCancel w =
  let s := state w in
  let r := cropRegion (originalCutStart s) (originalCutEnd s) in
  {| state :=
       {| isPlaying := false;
          cutStart := originalCutStart s;
          originalCutStart := originalCutStart s;
          cutEnd := originalCutEnd s;
          originalCutEnd := originalCutEnd s;
          waveSurfer := Some h;
          wasRegionChanged := false |};
     engine := {| ws_skipLength := ws_skipLength (engine w);
                  ws_duration := ws_duration (engine w);
                  ws_currentTime := ws_currentTime (engine w);
                  ws_regions := [r] |};
     trace := trace w ++ [Engine clearRegions; Engine (addRegion r);
                          Engine stop] |}.
Proof.
  intros Hready. handler. rewrite Hready. open_world w.
  rewrite <- !app_assoc. reflexivity.
Qed.

Lemma jumpToEnd_world (w : World) (h : Handle) :
  waveSurfer (state w) = Some h ->
  exec (handleClickJump true) w =
  let offset :=
    ws_duration (engine w) - ws_currentTime (engine w) - lit 5 0 in
  {| state := assign (set_isPlaying false) (state w);
     engine := engine w;
     trace := trace w ++ [Engine getDuration; Engine getCurrentTime;
                          Engine (skip offset); Engine pause;
                          Engine skipForward] |}.
Proof.
  intros Hready. handler. rewrite Hready. open_world w.
  rewrite <- !app_assoc. reflexivity.
Qed.

Lemma jumpToStart_world (w : World) (h : Handle) :
  waveSurfer (state w) = Some h ->
  exec (handleClickJump false) w =
  {| state := state w;
     engine := engine w;
     trace := trace w ++ Engine stop ::
                (if isPlaying (state w) then [Engine (play None)] else [])
  |}.
Proof.
  intros Hready. handler. rewrite Hready. open_world w.
  destruct playing; cbn; rewrite <- ?app_assoc; reflexivity.
Qed.

Lemma togglePlay_world (w : World) (h : Handle) :
  waveSurfer (state w) = Some h ->
  exec handleClickTogglePlay w =
  {| state := assign (set_isPlaying (negb (isPlaying (state w)))) (state w);
     engine := engine w;
     trace := trace w ++ [Engine (if isPlaying (state w)
                                  then pause else play None)] |}.
Proof.
  intros Hready. handler. rewrite Hready. open_world w.
  destruct playing; reflexivity.
Qed.

Lemma skip_world (w : World) (h : Handle) (forwards : bool) :
  waveSurfer (state w) = Some h ->
  exec (handleClickSkip forwards) w =
  {| state := state w;
     engine := engine w;
     trace := trace w ++ [Engine (if forwards
                                  then skipForward else skipBackward)] |}.
Proof.
  intros Hready. handler. rewrite Hready. open_world w.
  destruct forwards; reflexivity.
Qed.

Lemma cut_world (w : World) :
  exec handleClickCut w =
  {| state := state w; engine := engine w;
     trace := trace w ++ [Alert "Not yet implemented :("] |}.
Proof. reflexivity. Qed.

(** Without a handle every guarded handler returns at once. *)
Lemma guarded_without_handle (w : World) :
  waveSurfer (state w) = None ->
  (forall p, exec (onCropRegionUpdated p) w = w) /\
  (forall p, exec (onCropRegionUpdateEnd p) w = w) /\
  exec handleClickTogglePlay w = w /\
  (forall b, exec (handleClickSkip b) w = w) /\
  (forall b, exec (handleClickJump b) w = w) /\
  exec handleClickCancel w = w.
Proof.
  intros Hnone. repeat split; intros; handler; rewrite Hnone; reflexivity.
Qed.

Lemma ready_world (d : number) :
  ready d =
  let cs := if d >? lit 40 0 then lit 20 0 else lit 0 0 in
  let ce := if d >? lit 40 0 then d - lit 20 0 else d in
  {| state :=
       {| isPlaying := false;
          cutStart := cs; originalCutStart := cs;
          cutEnd := ce; originalCutEnd := ce;
          waveSurfer := Some TheWaveSurfer;
          wasRegionChanged := false |};
     engine := {| ws_skipLength := waveConfig.skipLength;
                  ws_duration := d;
                  ws_currentTime := lit 0 0;
                  ws_regions := [cropRegion cs ce] |};
     trace := [Engine (on "ready"); Engine loadBlob;
               Engine (on "region-created"); Engine (on "region-updated");
               Engine (on "region-update-end"); Engine getDuration;
               Engine (addRegion (cropRegion cs ce))] |}.
Proof.
  unfold ready, mounted. handler.
  destruct (d >? lit 40 0); reflexivity.
Qed.

Lemma updated_no_collision (w : World) (h : Handle) (params : RegionParams) :
  waveSurfer (state w) = Some h ->
  (abs (p_start params - p_end params) >? lit 1 (-2)) = true ->
  exec (onCropRegionUpdated params) w =
  {| state := state w; engine := engine w;
     trace := trace w ++ [ClearTitle] |}.
Proof.
  intros Hready Hguard. handler. rewrite Hready. cbn. rewrite Hguard.
  reflexivity.
Qed.

(* ================================================================== *)
(** ** Steps of a session *)

Lemma step_updated (w : World) (p : RegionParams) :
  step w (RegionUpdated p) = exec (onCropRegionUpdated p) (afterDrag p w).
Proof. reflexivity. Qed.

Lemma step_updateEnd (w : World) (p : RegionParams) :
  step w (RegionUpdateEnd p) = exec (onCropRegionUpdateEnd p) (afterDrag p w).
Proof. reflexivity. Qed.

Lemma run_cons (ev : Event) (evs : list Event) (w : World) :
  run (ev :: evs) w = run evs (step w ev).
Proof. reflexivity. Qed.

Lemma run_app (evs1 evs2 : list Event) (w : World) :
  run (evs1 ++ evs2) w = run evs2 (run evs1 w).
Proof. unfold run. apply fold_left_app. Qed.

(** Split a step by event, by presence of the handle and by the branch the
    handler takes, and replace the handler by the world it returns. *)
Ltac step_cases w ev :=
  let h := fresh "h" in
  let Hh := fresh "Hh" in
  let G := fresh "G" in
  destruct ev as [ |p|p| |b|b| | |t];
  [ unfold step, handle, exec, onCropRegionCreated, emit; cbn
  | rewrite (step_updated w p);
    destruct (waveSurfer (state w)) as [h|] eqn:Hh;
    [ destruct (abs (p_start p - p_end p) >? lit 1 (-2)) eqn:G;
      [ rewrite (@updated_no_collision (afterDrag p w) h p Hh G)
      | rewrite (@updated_collision (afterDrag p w) h p Hh G) ]
    | rewrite (proj1 (@guarded_without_handle (afterDrag p w) Hh) p) ]
  | rewrite (step_updateEnd w p);
    destruct (waveSurfer (state w)) as [h|] eqn:Hh;
    [ rewrite (@updateEnd_world (afterDrag p w) h p Hh)
    | rewrite (proj1 (proj2 (@guarded_without_handle (afterDrag p w) Hh)) p) ]
  | unfold step, handle;
    destruct (waveSurfer (state w)) as [h|] eqn:Hh;
    [ rewrite (togglePlay_world w Hh)
    | rewrite (proj1 (proj2 (proj2 (guarded_without_handle w Hh)))) ]
  | unfold step, handle;
    destruct (waveSurfer (state w)) as [h|] eqn:Hh;
    [ rewrite (skip_world w b Hh)
    | rewrite (proj1 (proj2 (proj2 (proj2 (guarded_without_handle w Hh)))) b) ]
  | unfold step, handle;
    destruct (waveSurfer (state w)) as [h|] eqn:Hh;
    [ destruct b;
      [ rewrite (jumpToEnd_world w Hh) | rewrite (jumpToStart_world w Hh) ]
    | rewrite (proj1 (proj2 (proj2 (proj2 (proj2
                 (guarded_without_handle w Hh))))) b) ]
  | unfold step, handle; rewrite (cut_world w)
  | unfold step, handle;
    destruct (waveSurfer (state w)) as [h|] eqn:Hh;
    [ rewrite (cancel_world w Hh)
    | rewrite (proj2 (proj2 (proj2 (proj2 (proj2
                 (guarded_without_handle w Hh)))))) ]
  | unfold step, handle, exec, modifyEngine; cbn ];
  cbn [state engine trace afterDrag dragged seeked
       ws_regions ws_skipLength ws_duration ws_currentTime].

(** No event touches the original bounds, the handle or the engine's
    configured skip length. *)
Lemma step_keeps (w : World) (ev : Event) :
  originalBounds (state (step w ev)) = originalBounds (state w) /\
  waveSurfer (state (step w ev)) = waveSurfer (state w) /\
  ws_skipLength (engine (step w ev)) = ws_skipLength (engine w).
Proof.
  step_cases w ev; try (repeat split; (reflexivity || congruence));
    destruct w as [[playing cs ocs ce oce hdl changed] e tr];
    repeat split; cbn in *; congruence.
Qed.

Lemma run_keeps (evs : list Event) (w : World) :
  originalBounds (state (run evs w)) = originalBounds (state w) /\
  waveSurfer (state (run evs w)) = waveSurfer (state w) /\
  ws_skipLength (engine (run evs w)) = ws_skipLength (engine w).
Proof.
  revert w. induction evs as [|ev evs IH]; intros w.
  - repeat split.
  - rewrite run_cons.
    destruct (IH (step w ev)) as (Ho & Hh & Hs).
    destruct (step_keeps w ev) as (Ho' & Hh' & Hs').
    repeat split; congruence.
Qed.

(** The number of regions the engine holds does not change once there is
    one. *)
Lemma step_one_region (w : World) (ev : Event) :
  List.length (ws_regions (engine w)) = 1%nat ->
  List.length (ws_regions (engine (step w ev))) = 1%nat.
Proof.
  intros H1. step_cases w ev; rewrite ?length_map; auto.
Qed.

(** *** Clear-then-add along a trace *)

Lemma addsAfterClear_weaken (c : bool) (t : list Effect) :
  addsAfterClear false t = true -> addsAfterClear c t = true.
Proof.
  destruct t as [|[[ ]| |] t]; cbn; auto. discriminate.
Qed.

Lemma addsAfterClear_app (c : bool) (t1 t2 : list Effect) :
  addsAfterClear c t1 = true ->
  addsAfterClear false t2 = true ->
  addsAfterClear c (t1 ++ t2) = true.
Proof.
  revert c. induction t1 as [|x t1 IH]; intros c H1 H2.
  - cbn. now apply addsAfterClear_weaken.
  - destruct x as [[ ]| |]; cbn in *; auto.
    apply andb_true_iff in H1 as [-> H1]. cbn. auto.
Qed.

(** What a step appends to the trace adds regions only after clearing. *)
Lemma step_trace (w : World) (ev : Event) :
  exists chunk,
    trace (step w ev) = trace w ++ chunk /\
    addsAfterClear false chunk = true.
Proof.
  step_cases w ev;
    try (eexists; split; [reflexivity | reflexivity]);
    try (exists []; split; [now rewrite app_nil_r | reflexivity]).
  - rewrite <- app_assoc. eexists; split; [reflexivity|].
    destruct (isPlaying (state w)); reflexivity.
  - eexists; split; [reflexivity|].
    destruct (isPlaying (state w)); reflexivity.
  - eexists; split; [reflexivity|]. destruct b; reflexivity.
  - eexists; split; [reflexivity|].
    destruct (isPlaying (state w)); reflexivity.
Qed.

Lemma run_trace (evs : list Event) (w : World) :
  exists t,
    trace (run evs w) = trace w ++ t /\
    addsAfterClear false t = true.
Proof.
  revert w. induction evs as [|ev evs IH]; intros w.
  - exists []. split; [now rewrite app_nil_r | reflexivity].
  - rewrite run_cons.
    destruct (IH (step w ev)) as (t2 & E2 & A2).
    destruct (step_trace w ev) as (t1 & E1 & A1).
    exists (t1 ++ t2). split.
    + now rewrite E2, E1, app_assoc.
    + now apply addsAfterClear_app.
Qed.

Lemma run_one_region (evs : list Event) (w : World) :
  List.length (ws_regions (engine w)) = 1%nat ->
  List.length (ws_regions (engine (run evs w))) = 1%nat.
Proof.
  revert w. induction evs as [|ev evs IH]; intros w H1; auto.
  rewrite run_cons. apply IH. now apply step_one_region.
Qed.

(** *** The changed flag along a session *)

Lemma step_flagSound (w : World) (ev : Event) (g : bool) :
  flagSound w g -> flagSound (step w ev) (zeroAnchor ev w g).
Proof.
  unfold flagSound, zeroAnchor. intros Inv.
  step_cases w ev; try exact Inv;
    try (destruct w as [[playing cs ocs ce oce hdl changed] e tr];
         cbn in *; exact Inv).
  - (* a finished drag: the flag and the ambiguity are complementary *)
    unfold strict_neq. intros F G.
    destruct (anchor p (state w) === lit 0 0); discriminate.
  - (* cancel *)
    reflexivity.
Qed.

Lemma run_flagSound (evs : list Event) (w : World) (g : bool) :
  flagSound w g -> flagSound (run evs w) (ambiguous evs w g).
Proof.
  revert w g. induction evs as [|ev evs IH]; intros w g Inv; auto.
  rewrite run_cons. cbn [ambiguous]. apply IH. now apply step_flagSound.
Qed.

Lemma ready_flagSound (d : number) : flagSound (ready d) false.
Proof. rewrite ready_world. unfold flagSound. reflexivity. Qed.

Lemma session_handle (d : number) (evs : list Event) :
  waveSurfer (state (session d evs)) = Some TheWaveSurfer.
Proof.
  unfold session.
  destruct (run_keeps evs (ready d)) as (_ & -> & _).
  now rewrite ready_world.
Qed.

Lemma session_skipLength (d : number) (evs : list Event) :
  ws_skipLength (engine (session d evs)) = waveConfig.skipLength.
Proof.
  unfold session.
  destruct (run_keeps evs (ready d)) as (_ & _ & ->).
  now rewrite ready_world.
Qed.

(* ================================================================== *)
(** ** The stated properties *)

(** C1. A region-updated event whose bounds are within 0.25 s of each
    other, received while the handle is present: the handler clears the
    regions and adds one at the committed [cutStart]/[cutEnd], so that the
    engine holds that single region; it plays the recreated region exactly
    when [isPlaying] is set; and it leaves the whole state, hence the
    committed bounds, the original bounds and [wasRegionChanged], as they
    were. *)
Theorem onCropRegionUpdated_collision_guard
    (w : World) (h : Handle) (params : RegionParams) :
  waveSurfer (state w) = Some h ->
  (abs (p_start params - p_end params) <=? lit 1 (-2)) = true ->
  let w' := exec (onCropRegionUpdated params) w in
  let r := cropRegion (cutStart (state w)) (cutEnd (state w)) in
  ws_regions (engine w') = [r] /\
  trace w' = (trace w ++ [ClearTitle; Engine clearRegions;
                          Engine (addRegion r)])
             ++ (if isPlaying (state w)
                 then [Engine (region_play r)] else []) /\
  state w' = state w /\
  bounds (state w') = bounds (state w).
Proof.
  intros Hready Hnear w' r. subst w'.
  rewrite (updated_collision w params Hready
             (NumberFacts.le_not_gt _ _ Hnear)).
  cbn. repeat split.
Qed.

Lemma onCropRegionUpdated_collision_guard_witness :
  let w := session (lit 60 0)
             [RegionUpdateEnd {| p_start := lit 20 0; p_end := lit 25 0 |}] in
  let p := {| p_start := lit 241 (-3); p_end := lit 242 (-3) |} in
  ws_regions (engine (exec (onCropRegionUpdated p) w))
  = [cropRegion (lit 20 0) (lit 25 0)].
Proof.
  intros w p.
  apply (onCropRegionUpdated_collision_guard w (h := TheWaveSurfer) p);
    vm_compute; reflexivity.
Defined.

(** C2. A region-update-end event received while the handle is present:
    [cutEnd] takes the new end if it differs from the committed one,
    [cutStart] takes the new start if it differs from the committed one,
    the anchor is the new start if the start moved, else the new end if the
    end moved, else 0; the engine is told to play from the anchor,
    [isPlaying] becomes true and [wasRegionChanged] becomes
    (anchor !== 0).  Nothing else changes. *)
Theorem onCropRegionUpdateEnd_commits
    (w : World) (h : Handle) (params : RegionParams) :
  waveSurfer (state w) = Some h ->
  let s := state w in
  let w' := exec (onCropRegionUpdateEnd params) w in
  let s' := state w' in
  cutEnd s' = (if p_end params !== cutEnd s
               then p_end params else cutEnd s) /\
  cutStart s' = (if p_start params !== cutStart s
                 then p_start params else cutStart s) /\
  trace w' = trace w ++ [Engine (play (Some (anchor params s)))] /\
  isPlaying s' = true /\
  wasRegionChanged s' = (anchor params s !== lit 0 0) /\
  originalBounds s' = originalBounds s /\
  waveSurfer s' = waveSurfer s /\
  engine w' = engine w.
Proof.
  intros Hready s w' s'. subst s' w' s.
  rewrite (updateEnd_world w params Hready). cbn.
  repeat split. now rewrite Hready.
Qed.

Lemma onCropRegionUpdateEnd_commits_witness :
  let w := ready (lit 60 0) in
  let p := {| p_start := lit 20 0; p_end := lit 25 0 |} in
  let w' := exec (onCropRegionUpdateEnd p) w in
  cutEnd (state w') = lit 25 0 /\
  cutStart (state w') = lit 20 0 /\
  trace w' = trace w ++ [Engine (play (Some (lit 25 0)))] /\
  isPlaying (state w') = true /\
  wasRegionChanged (state w') = true.
Proof.
  intros w p w'.
  destruct (onCropRegionUpdateEnd_commits w (h := TheWaveSurfer) p eq_refl)
    as (He & Hs & Ht & Hp & Hc & _).
  exact (conj He (conj Hs (conj Ht (conj Hp Hc)))).
Defined.

(** C3. When the engine reports ready with duration [d], the committed
    bounds are [20, d - 20] if [d > 40] and [0, d] otherwise, the region
    created is the one over those bounds, and the original bounds are set
    to the same values; no later event changes the original bounds. *)
Theorem onWaveSurferReady_default_region (d : number) :
  let s := state (ready d) in
  bounds s = (if d >? lit 40 0
              then (lit 20 0, d - lit 20 0) else (lit 0 0, d)) /\
  ws_regions (engine (ready d)) = [cropRegion (cutStart s) (cutEnd s)] /\
  originalBounds s = bounds s /\
  waveSurfer s = Some TheWaveSurfer /\
  forall evs, originalBounds (state (session d evs)) = bounds s.
Proof.
  assert (H : let s := state (ready d) in
    bounds s = (if d >? lit 40 0
                then (lit 20 0, d - lit 20 0) else (lit 0 0, d)) /\
    ws_regions (engine (ready d)) = [cropRegion (cutStart s) (cutEnd s)] /\
    originalBounds s = bounds s /\
    waveSurfer s = Some TheWaveSurfer).
  { rewrite ready_world. cbn. unfold bounds, originalBounds. cbn.
    destruct (d >? lit 40 0); repeat split. }
  cbv zeta in *. destruct H as (Hb & Hr & Ho & Hh).
  repeat split; auto.
  intros evs. unfold session.
  destruct (run_keeps evs (ready d)) as (-> & _). exact Ho.
Qed.

(** A 60 s track gets the region [20, 40]; tracks of 40 s and of 30 s are
    selected whole. *)
Example ready_60 : bounds (state (ready (lit 60 0))) = (lit 20 0, lit 40 0).
Proof. vm_compute. reflexivity. Qed.

Example ready_40 : bounds (state (ready (lit 40 0))) = (lit 0 0, lit 40 0).
Proof. vm_compute. reflexivity. Qed.

Example ready_30 : bounds (state (ready (lit 30 0))) = (lit 0 0, lit 30 0).
Proof. vm_compute. reflexivity. Qed.

(** C4, as stated, fails.  On a 60 s track, drag the end handle from 40 to
    25 and then back to 40: no anchor resolved to 0, the bounds are the
    original [20, 40] again, and [wasRegionChanged] is still true. *)
Lemma flag_iff_bounds_differ_fails : ~ flag_iff_bounds_differ.
Proof.
  intros H.
  specialize (H (lit 60 0)
                [RegionUpdateEnd {| p_start := lit 20 0; p_end := lit 25 0 |};
                 RegionUpdateEnd {| p_start := lit 20 0; p_end := lit 40 0 |}]
                eq_refl).
  cbv zeta in H. destruct H as [H _].
  apply H; vm_compute; reflexivity.
Qed.

(** C4, amended.  In every state reachable after readiness, if the bounds
    differ from the original bounds then [wasRegionChanged] is true, unless
    the state sits in the zero-anchor ambiguity (the last finished drag
    resolved its anchor to 0 and no cancel followed). *)
Theorem wasRegionChanged_when_bounds_differ
    (d : number) (evs : list Event) :
  let s := state (session d evs) in
  bounds s <> originalBounds s ->
  wasRegionChanged s = true \/ ambiguous evs (ready d) false = true.
Proof.
  intros s Hdiff. subst s.
  pose proof (run_flagSound evs (ready_flagSound d)) as Inv.
  unfold flagSound in Inv. fold (session d evs) in Inv.
  destruct (wasRegionChanged (state (session d evs))); [now left|].
  destruct (ambiguous evs (ready d) false); [now right|].
  exfalso. apply Hdiff. now apply Inv.
Qed.

Lemma wasRegionChanged_when_bounds_differ_witness :
  wasRegionChanged
    (state (session (lit 60 0)
              [RegionUpdateEnd {| p_start := lit 20 0; p_end := lit 25 0 |}]))
    = true
  \/ ambiguous [RegionUpdateEnd {| p_start := lit 20 0; p_end := lit 25 0 |}]
       (ready (lit 60 0)) false = true.
Proof.
  apply (wasRegionChanged_when_bounds_differ (lit 60 0)
           [RegionUpdateEnd {| p_start := lit 20 0; p_end := lit 25 0 |}]).
  vm_compute. discriminate.
Defined.

(** The documented ambiguity: a null drag after a real one resolves the
    anchor to 0 and clears the flag while the bounds still differ. *)
Example flag_after_null_drag :
  let w := session (lit 60 0)
             [RegionUpdateEnd {| p_start := lit 20 0; p_end := lit 25 0 |};
              RegionUpdateEnd {| p_start := lit 20 0; p_end := lit 25 0 |}] in
  wasRegionChanged (state w) = false /\
  bounds (state w) = (lit 20 0, lit 25 0) /\
  originalBounds (state w) = (lit 20 0, lit 40 0).
Proof. vm_compute. repeat split. Qed.

(** C5. In a ready state, cancel puts [cutStart]/[cutEnd] back to the
    original bounds, clears the regions and adds one over those bounds,
    stops the engine, and sets [isPlaying] and [wasRegionChanged] to false;
    a second cancel right after changes neither the state nor the
    regions. *)
Theorem handleClickCancel_restores (w : World) (h : Handle) :
  waveSurfer (state w) = Some h ->
  let s := state w in
  let w' := exec handleClickCancel w in
  let r := cropRegion (originalCutStart s) (originalCutEnd s) in
  bounds (state w') = originalBounds s /\
  originalBounds (state w') = originalBounds s /\
  isPlaying (state w') = false /\
  wasRegionChanged (state w') = false /\
  waveSurfer (state w') = waveSurfer s /\
  ws_regions (engine w') = [r] /\
  trace w' = trace w ++ [Engine clearRegions; Engine (addRegion r);
                         Engine stop] /\
  state (exec handleClickCancel w') = state w' /\
  engine (exec handleClickCancel w') = engine w'.
Proof.
  intros Hready s w' r. subst r w' s.
  assert (Hready' : waveSurfer (state (exec handleClickCancel w)) = Some h)
    by now rewrite (cancel_world w Hready).
  rewrite (cancel_world _ Hready').
  rewrite (cancel_world w Hready). cbn.
  repeat split. now rewrite Hready.
Qed.

Lemma handleClickCancel_restores_witness :
  let w := session (lit 60 0)
             [RegionUpdateEnd {| p_start := lit 20 0; p_end := lit 25 0 |}] in
  bounds (state (exec handleClickCancel w)) = (lit 20 0, lit 40 0).
Proof.
  intros w.
  exact (proj1 (handleClickCancel_restores w (h := TheWaveSurfer) eq_refl)).
Defined.

(** C6, as stated, fails: [handleClickCut] has no guard on the handle, so
    on a freshly mounted player, before ready, it raises its alert. *)
Lemma noop_without_handle_fails : ~ noop_without_handle.
Proof.
  intros H.
  specialize (H ClickCut (mounted (lit 60 0)) eq_refl eq_refl).
  apply (f_equal (fun w => List.length (trace w))) in H.
  vm_compute in H. discriminate.
Qed.

(** As rendered before ready, the cut and cancel icons have no click
    handler: the unguarded cut can only be reached by calling the handler
    itself. *)
Example cut_not_wired_before_ready (d : number) :
  onClick (state (mounted d)) CutButton = None /\
  onClick (state (mounted d)) CancelButton = None.
Proof. split; reflexivity. Qed.

(** C6, amended.  While the handle is absent, togglePlay, skip, jump and
    cancel leave the world as it is: no state change, no engine call,
    nothing shown.  Cut is not guarded: it changes no state and calls no
    engine method either, but it shows its notice. *)
Theorem ui_operations_without_handle (ev : Event) (w : World) :
  uiOperation ev = true ->
  waveSurfer (state w) = None ->
  (ev <> ClickCut -> step w ev = w) /\
  (ev = ClickCut ->
   state (step w ev) = state w /\
   engine (step w ev) = engine w /\
   trace (step w ev) = trace w ++ [Alert "Not yet implemented :("]).
Proof.
  intros Hui Hnone.
  destruct (guarded_without_handle w Hnone) as (_ & _ & Ht & Hs & Hj & Hc).
  destruct ev; try discriminate Hui; unfold step, handle;
    (split; intros E; [ try congruence; auto | try discriminate E ]).
  repeat split.
Qed.

Lemma ui_operations_without_handle_witness :
  step (mounted (lit 60 0)) ClickCancel = mounted (lit 60 0).
Proof.
  apply (ui_operations_without_handle ClickCancel (mounted (lit 60 0))
           eq_refl eq_refl).
  discriminate.
Defined.

(** C7. In every state reachable after readiness, jump-to-end reads the
    duration and the current time, tells the engine to skip by
    [duration - currentTime - 5], then to pause, then to skip forward once;
    the engine's skip length is the configured 5 seconds; [isPlaying]
    becomes false and no other state field changes. *)
Theorem handleClickJump_to_end (d : number) (evs : list Event) :
  let w := session d evs in
  let w' := exec (handleClickJump true) w in
  let offset :=
    ws_duration (engine w) - ws_currentTime (engine w) - lit 5 0 in
  trace w' = trace w ++ [Engine getDuration; Engine getCurrentTime;
                         Engine (skip offset); Engine pause;
                         Engine skipForward] /\
  ws_skipLength (engine w') = lit 5 0 /\
  isPlaying (state w') = false /\
  bounds (state w') = bounds (state w) /\
  originalBounds (state w') = originalBounds (state w) /\
  wasRegionChanged (state w') = wasRegionChanged (state w) /\
  waveSurfer (state w') = waveSurfer (state w).
Proof.
  intros w w' offset. subst offset w' w.
  rewrite (jumpToEnd_world _ (session_handle d evs)). cbn.
  rewrite (session_skipLength d evs).
  destruct (state (session d evs)). repeat split.
Qed.

(** A 60 s track with the playhead at 10 s: the engine is told to skip
    by 45. *)
Example jump_to_end_60_10 :
  let w := session (lit 60 0) [Playhead (lit 10 0)] in
  trace (exec (handleClickJump true) w) =
  trace w ++ [Engine getDuration; Engine getCurrentTime;
              Engine (skip (lit 45 0)); Engine pause; Engine skipForward].
Proof. vm_compute. reflexivity. Qed.

(** C8, as stated, fails: the ready handler adds the first region without
    clearing, so the trace of a session does not have every [addRegion]
    right after a [clearRegions]. *)
Lemma one_region_by_clear_then_add_fails : ~ one_region_by_clear_then_add.
Proof.
  intros H. destruct (H (lit 60 0) []) as [_ H2].
  vm_compute in H2. discriminate.
Qed.

(** C8, amended.  A freshly created engine holds no region; the ready
    handler adds one to it, without clearing; from then on every region
    the component adds comes right after a [clearRegions]; and in every
    state reachable after readiness the engine holds exactly one region. *)
Theorem exactly_one_region (d : number) (evs : list Event) :
  ws_regions (engine (mounted d)) = [] /\
  (exists r,
     trace (ready d) = trace (mounted d) ++
       [Engine (on "region-created"); Engine (on "region-updated");
        Engine (on "region-update-end"); Engine getDuration;
        Engine (addRegion r)] /\
     ws_regions (engine (ready d)) = [r]) /\
  (exists t,
     trace (session d evs) = trace (ready d) ++ t /\
     addsAfterClear false t = true) /\
  List.length (ws_regions (engine (session d evs))) = 1%nat.
Proof.
  split; [reflexivity|]. split; [|split].
  - rewrite ready_world. cbn. eexists. split; reflexivity.
  - apply run_trace.
  - apply run_one_region. now rewrite ready_world.
Qed.

(** C9. Whatever the state, cut shows the "not implemented" notice and
    nothing else: the state (every field, the handle included) and the
    engine are as before, and the notice is the one thing appended to the
    trace. *)
Theorem handleClickCut_notice (w : World) :
  let w' := exec handleClickCut w in
  state w' = state w /\
  engine w' = engine w /\
  trace w' = trace w ++ [Alert "Not yet implemented :("].
Proof. repeat split. Qed.

(** C10. In a ready state, jump-to-start leaves every state field as it
    was: it stops the engine and, only when [isPlaying] was set, starts
    playback again; it makes no state update. *)
Theorem handleClickJump_to_start (w : World) (h : Handle) :
  waveSurfer (state w) = Some h ->
  let w' := exec (handleClickJump false) w in
  state w' = state w /\
  engine w' = engine w /\
  trace w' = trace w ++ Engine stop ::
               (if isPlaying (state w) then [Engine (play None)] else []).
Proof.
  intros Hready w'. subst w'.
  rewrite (jumpToStart_world w Hready). repeat split.
Qed.

Lemma handleClickJump_to_start_witness :
  let w := session (lit 60 0)
             [RegionUpdateEnd {| p_start := lit 20 0; p_end := lit 25 0 |}] in
  state (exec (handleClickJump false) w) = state w.
Proof.
  intros w.
  exact (proj1 (handleClickJump_to_start w (h := TheWaveSurfer) eq_refl)).
Defined.

(* ================================================================== *)
(** ** Further properties of the handlers *)

(** X1. In a ready state, two toggles in a row bring the state back: the
    engine is told to pause and then to play when the player was playing,
    to play and then to pause when it was not, and no field of the state
    differs afterwards. *)
Theorem handleClickTogglePlay_twice (w : World) (h : Handle) :
  waveSurfer (state w) = Some h ->
  let w2 := exec handleClickTogglePlay (exec handleClickTogglePlay w) in
  state w2 = state w /\
  engine w2 = engine w /\
  trace w2 = trace w ++ (if isPlaying (state w)
                         then [Engine pause; Engine (play None)]
                         else [Engine (play None); Engine pause]).
Proof.
  intros Hready w2. subst w2.
  assert (Hready' : waveSurfer (state (exec handleClickTogglePlay w)) = Some h).
  { rewrite (togglePlay_world w Hready). open_world w. reflexivity. }
  rewrite (togglePlay_world _ Hready'), (togglePlay_world w Hready).
  open_world w. rewrite <- app_assoc.
  destruct playing; repeat split.
Qed.

Lemma handleClickTogglePlay_twice_witness :
  let w := ready (lit 60 0) in
  trace (exec handleClickTogglePlay (exec handleClickTogglePlay w))
  = trace w ++ [Engine (play None); Engine pause].
Proof.
  intros w.
  exact (proj2 (proj2
    (handleClickTogglePlay_twice w (h := TheWaveSurfer) eq_refl))).
Defined.

(** X2. In a ready state, any series of skip clicks leaves the state and
    the engine's regions untouched, [isPlaying] included: all it does is
    one [skipForward] or [skipBackward] call per click, in order. *)
Theorem handleClickSkip_series (bs : list bool) (w : World) (h : Handle) :
  waveSurfer (state w) = Some h ->
  run (map ClickSkip bs) w =
  {| state := state w; engine := engine w;
     trace := trace w ++ map skipCall bs |}.
Proof.
  revert w. induction bs as [|b bs IH]; intros w Hready.
  - cbn. rewrite app_nil_r. now destruct w.
  - cbn [map]. rewrite run_cons.
    assert (E : step w (ClickSkip b) =
                {| state := state w; engine := engine w;
                   trace := trace w ++ [skipCall b] |})
      by exact (skip_world w b Hready).
    rewrite E, IH by exact Hready.
    cbn. now rewrite <- app_assoc.
Qed.

Lemma handleClickSkip_series_witness :
  state (run (map ClickSkip [true; false; true]) (ready (lit 60 0)))
  = state (ready (lit 60 0)).
Proof.
  exact (f_equal state
    (handleClickSkip_series [true; false; true] (ready (lit 60 0))
       (h := TheWaveSurfer) eq_refl)).
Defined.

(** X3. A region-updated event whose bounds are more than 0.25 s apart,
    received while the handle is present, only clears the region's title:
    no engine call is made, the regions stay as they are and no bound is
    committed. *)
Theorem onCropRegionUpdated_in_progress
    (w : World) (h : Handle) (params : RegionParams) :
  waveSurfer (state w) = Some h ->
  (abs (p_start params - p_end params) >? lit 1 (-2)) = true ->
  exec (onCropRegionUpdated params) w =
  {| state := state w; engine := engine w;
     trace := trace w ++ [ClearTitle] |}.
Proof. exact (@updated_no_collision w h params). Qed.

Lemma onCropRegionUpdated_in_progress_witness :
  let w := ready (lit 60 0) in
  let p := {| p_start := lit 20 0; p_end := lit 30 0 |} in
  exec (onCropRegionUpdated p) w =
  {| state := state w; engine := engine w;
     trace := trace w ++ [ClearTitle] |}.
Proof.
  intros w p.
  exact (onCropRegionUpdated_in_progress w (h := TheWaveSurfer) p
           eq_refl eq_refl).
Defined.

(** X4. The collision test is [Math.abs(start - end) > 0.25], which is
    false on NaN: a region-updated event with a NaN bound is handled as a
    collision, the region being recreated over the committed bounds. *)
Theorem onCropRegionUpdated_NaN_recreates
    (w : World) (h : Handle) (params : RegionParams) :
  waveSurfer (state w) = Some h ->
  isNaN (p_start params) = true \/ isNaN (p_end params) = true ->
  let w' := exec (onCropRegionUpdated params) w in
  ws_regions (engine w')
  = [cropRegion (cutStart (state w)) (cutEnd (state w))] /\
  state w' = state w.
Proof.
  intros Hready Hnan w'. subst w'.
  rewrite (updated_collision w params Hready
             (NumberFacts.abs_sub_NaN_not_gt _ _ _ Hnan)).
  split; reflexivity.
Qed.

Lemma onCropRegionUpdated_NaN_recreates_witness :
  let w := ready (lit 60 0) in
  let p := {| p_start := NaN; p_end := lit 30 0 |} in
  ws_regions (engine (exec (onCropRegionUpdated p) w))
  = [cropRegion (lit 20 0) (lit 40 0)].
Proof.
  intros w p.
  exact (proj1 (onCropRegionUpdated_NaN_recreates w (h := TheWaveSurfer) p
                  eq_refl (or_introl eq_refl))).
Defined.

(** X5. The two drag handlers return at once while the handle is absent:
    whatever bounds they are given, nothing is committed, no engine call is
    made and not even the region's title is cleared. *)
Theorem drag_handlers_without_handle (w : World) (params : RegionParams) :
  waveSurfer (state w) = None ->
  exec (onCropRegionUpdated params) w = w /\
  exec (onCropRegionUpdateEnd params) w = w.
Proof.
  intros Hnone.
  destruct (guarded_without_handle w Hnone) as (Hu & He & _).
  split; [apply Hu | apply He].
Qed.

Lemma drag_handlers_without_handle_witness :
  let p := {| p_start := lit 1 0; p_end := lit 2 0 |} in
  exec (onCropRegionUpdateEnd p) (mounted (lit 60 0)) = mounted (lit 60 0).
Proof.
  intros p.
  exact (proj2 (drag_handlers_without_handle (mounted (lit 60 0)) p eq_refl)).
Defined.

(** X6. Unmounting releases the engine only once ready has fired: in
    every state reachable after readiness it makes the single call
    [destroy] and changes no state; on a player that is mounted but not
    yet ready it does nothing at all, although the engine has been created
    and told to load. *)
Theorem componentWillUnmount_destroys_when_ready
    (d : number) (evs : list Event) :
  exec componentWillUnmount (session d evs) =
    {| state := state (session d evs); engine := engine (session d evs);
       trace := trace (session d evs) ++ [Engine destroy] |} /\
  exec componentWillUnmount (mounted d) = mounted d /\
  trace (mounted d) = [Engine (on "ready"); Engine loadBlob].
Proof.
  split; [|split; reflexivity].
  handler. now rewrite (session_handle d evs).
Qed.

(** X7. The loading overlay is shown, and the waveform row hidden, from
    mounting until ready; in every state reachable after readiness the
    overlay is off and the row is shown: no handler ever drops the
    handle. *)
Theorem render_loading_until_ready (d : number) (evs : list Event) :
  overlayActive (render (state (mounted d))) = true /\
  waveformRowClass (render (state (mounted d)))
    = "row mzt-row-waveform mzt-hidden"%string /\
  overlayActive (render (state (session d evs))) = false /\
  waveformRowClass (render (state (session d evs)))
    = "row mzt-row-waveform "%string.
Proof.
  split; [reflexivity|]. split; [reflexivity|].
  unfold render. rewrite (session_handle d evs). split; reflexivity.
Qed.

Lemma click_exec (b : Button) (w : World) :
  exec (click b) w = match onClick (state w) b with
                     | Some f => exec f w
                     | None => w
                     end.
Proof.
  unfold click, exec, bind, getState.
  destruct (onClick (state w) b); reflexivity.
Qed.

Lemma click_without_handle (b : Button) (w : World) :
  waveSurfer (state w) = None ->
  wasRegionChanged (state w) = false ->
  exec (click b) w = w.
Proof.
  intros Hnone Hflag.
  destruct (guarded_without_handle w Hnone) as (_ & _ & Ht & Hs & Hj & Hc).
  rewrite click_exec. unfold onClick.
  destruct b; rewrite ?Hflag; auto.
Qed.

(** X8. Before ready, no series of clicks on the button row does
    anything: the world stays the freshly mounted one.  Cut and cancel
    have no click handler there, the other handlers return at their
    guard. *)
Theorem clicks_before_ready (d : number) (bs : list Button) :
  clicks bs (mounted d) = mounted d.
Proof.
  induction bs as [|b bs IH]; [reflexivity|].
  unfold clicks in *. cbn [fold_left].
  rewrite (click_without_handle b (mounted d)) by reflexivity.
  exact IH.
Qed.

(** X9. Clicking the cancel icon twice is the same as clicking it once,
    for the whole world: the first click, if it cancels, clears
    [wasRegionChanged], which takes the click handler off the icon, so the
    second click makes no engine call. *)
Theorem click_cancel_idempotent (w : World) :
  exec (click CancelButton) (exec (click CancelButton) w)
  = exec (click CancelButton) w.
Proof.
  pose proof (click_exec CancelButton w) as E. unfold onClick in E.
  destruct (wasRegionChanged (state w)) eqn:Hflag.
  - destruct (waveSurfer (state w)) as [h|] eqn:Hh.
    + rewrite E, (cancel_world w Hh). rewrite click_exec. reflexivity.
    + rewrite (proj2 (proj2 (proj2 (proj2 (proj2
                 (guarded_without_handle w Hh)))))) in E.
      now rewrite !E.
  - now rewrite !E.
Qed.

(** X10. Only a finished drag and a cancel commit anything: every other
    event leaves the committed bounds and [wasRegionChanged] as they
    were. *)
Theorem only_drag_end_and_cancel_commit (w : World) (ev : Event) :
  commits ev = false ->
  bounds (state (step w ev)) = bounds (state w) /\
  wasRegionChanged (state (step w ev)) = wasRegionChanged (state w).
Proof.
  intros Hev.
  step_cases w ev; try discriminate Hev; try (split; reflexivity).
Qed.

Lemma only_drag_end_and_cancel_commit_witness :
  bounds (state (step (ready (lit 60 0)) (ClickJump true)))
  = bounds (state (ready (lit 60 0))).
Proof.
  exact (proj1 (only_drag_end_and_cancel_commit (ready (lit 60 0))
                  (ClickJump true) eq_refl)).
Defined.

Lemma step_commanded (w : World) (ev : Event) :
  isPlaying (state w) = commanded (trace w) ->
  isPlaying (state (step w ev)) = commanded (trace (step w ev)).
Proof.
  unfold commanded. intros Inv.
  step_cases w ev; rewrite ?fold_left_app, <- ?Inv; cbn; auto;
    try (destruct (isPlaying (state w)); cbn;
         rewrite ?fold_left_app, <- ?Inv; reflexivity);
    try (destruct b; reflexivity).
Qed.

(** X11. In every state reachable after readiness, [isPlaying] is what
    the engine was last told: true if the last playback command sent was a
    [play] (on the engine or on a recreated region), false if it was a
    [pause] or a [stop], or if none was sent yet. *)
Theorem isPlaying_follows_commands (d : number) (evs : list Event) :
  isPlaying (state (session d evs)) = commanded (trace (session d evs)).
Proof.
  unfold session.
  assert (H0 : isPlaying (state (ready d)) = commanded (trace (ready d)))
    by (rewrite ready_world; reflexivity).
  revert H0. generalize (ready d).
  induction evs as [|ev evs IH]; intros w Inv; [exact Inv|].
  rewrite run_cons. apply IH. now apply step_commanded.
Qed.

Lemma updateEnd_reported (w : World) (h : Handle) (params : RegionParams) :
  waveSurfer (state w) = Some h ->
  isNaN (p_start params) = false ->
  isNaN (p_end params) = false ->
  (cutStart (state (exec (onCropRegionUpdateEnd params) w))
   === p_start params) = true /\
  (cutEnd (state (exec (onCropRegionUpdateEnd params) w))
   === p_end params) = true.
Proof.
  intros Hready Hs He.
  rewrite (updateEnd_world w params Hready). cbn.
  unfold strict_neq. split.
  - destruct (p_start params === cutStart (state w)) eqn:E; cbn.
    + now rewrite NumberFacts.strict_eq_sym.
    + now apply NumberFacts.strict_eq_refl.
  - destruct (p_end params === cutEnd (state w)) eqn:E; cbn.
    + now rewrite NumberFacts.strict_eq_sym.
    + now apply NumberFacts.strict_eq_refl.
Qed.

(** X12. A finished drag commits what the event reports: when neither
    reported bound is NaN, the committed bounds after the handler are
    [===] to the reported ones, whatever they are (the 0.25 s test of the
    in-progress handler is not made here). *)
Theorem onCropRegionUpdateEnd_commits_reported
    (w : World) (h : Handle) (params : RegionParams) :
  waveSurfer (state w) = Some h ->
  isNaN (p_start params) = false ->
  isNaN (p_end params) = false ->
  let s' := state (exec (onCropRegionUpdateEnd params) w) in
  (cutStart s' === p_start params) = true /\
  (cutEnd s' === p_end params) = true.
Proof. intros Hready Hs He s'. exact (updateEnd_reported w params Hready Hs He). Qed.

Lemma onCropRegionUpdateEnd_commits_reported_witness :
  let w := ready (lit 60 0) in
  let p := {| p_start := lit 30 0; p_end := lit 30 0 |} in
  (cutStart (state (exec (onCropRegionUpdateEnd p) w)) === lit 30 0) = true.
Proof.
  intros w p.
  exact (proj1 (onCropRegionUpdateEnd_commits_reported w
                  (h := TheWaveSurfer) p eq_refl eq_refl eq_refl)).
Defined.

(** X13. Reporting the same finished drag a second time changes no bound
    but resolves the anchor to 0: playback is restarted from 0 and
    [wasRegionChanged] is cleared, whatever the first report had set
    (bounds without NaN). *)
Theorem onCropRegionUpdateEnd_repeated
    (w : World) (h : Handle) (params : RegionParams) :
  waveSurfer (state w) = Some h ->
  isNaN (p_start params) = false ->
  isNaN (p_end params) = false ->
  let w1 := exec (onCropRegionUpdateEnd params) w in
  let w2 := exec (onCropRegionUpdateEnd params) w1 in
  bounds (state w2) = bounds (state w1) /\
  wasRegionChanged (state w2) = false /\
  isPlaying (state w2) = true /\
  trace w2 = trace w1 ++ [Engine (play (Some (lit 0 0)))].
Proof.
  intros Hready Hs He w1 w2.
  destruct (updateEnd_reported w params Hready Hs He) as [Es Ee].
  fold w1 in Es, Ee.
  assert (Hready1 : waveSurfer (state w1) = Some h).
  { unfold w1. rewrite (updateEnd_world w params Hready). reflexivity. }
  assert (Ns : (p_start params !== cutStart (state w1)) = false).
  { unfold strict_neq. now rewrite NumberFacts.strict_eq_sym, Es. }
  assert (Ne : (p_end params !== cutEnd (state w1)) = false).
  { unfold strict_neq. now rewrite NumberFacts.strict_eq_sym, Ee. }
  unfold w2. rewrite (updateEnd_world w1 params Hready1).
  unfold anchor, bounds. cbn. rewrite Ns, Ne. repeat split.
Qed.

Lemma onCropRegionUpdateEnd_repeated_witness :
  let w := ready (lit 60 0) in
  let p := {| p_start := lit 20 0; p_end := lit 25 0 |} in
  wasRegionChanged
    (state (exec (onCropRegionUpdateEnd p) (exec (onCropRegionUpdateEnd p) w)))
  = false.
Proof.
  intros w p.
  exact (proj1 (proj2 (onCropRegionUpdateEnd_repeated w (h := TheWaveSurfer) p
                         eq_refl eq_refl eq_refl))).
Defined.

Lemma step_alerts (w : World) (ev : Event) :
  filter isAlert (trace (step w ev)) =
  filter isAlert (trace w)
  ++ (if isCut ev then [Alert "Not yet implemented :("] else []).
Proof.
  step_cases w ev; rewrite ?filter_app; cbn; rewrite ?app_nil_r; auto;
    try (destruct (isPlaying (state w)); cbn; rewrite ?app_nil_r;
         reflexivity);
    try (destruct b; cbn; rewrite ?app_nil_r; reflexivity).
Qed.

(** X14. The only thing the player ever shows to the user is the cut
    notice: the alerts raised along a session are exactly one "Not yet
    implemented" per call of the cut handler, and no handler raises any
    other. *)
Theorem alerts_are_cut_notices (d : number) (evs : list Event) :
  filter isAlert (trace (session d evs)) =
  repeat (Alert "Not yet implemented :(") (List.length (filter isCut evs)).
Proof.
  unfold session.
  assert (H0 : filter isAlert (trace (ready d)) = [])
    by (rewrite ready_world; reflexivity).
  enough (G : forall w,
             filter isAlert (trace (run evs w)) =
             filter isAlert (trace w) ++
             repeat (Alert "Not yet implemented :(")
                    (List.length (filter isCut evs)))
    by (rewrite G, H0; reflexivity).
  induction evs as [|ev evs IH]; intros w.
  - cbn. now rewrite app_nil_r.
  - rewrite run_cons, IH, step_alerts, <- app_assoc. f_equal.
    cbn [filter]. destruct (isCut ev); reflexivity.
Qed.

(** X15. Cancel undoes a whole session: from any state reachable after
    readiness, it gives back the state the player had at readiness (the
    default bounds, not playing, nothing changed) and leaves the engine
    with the single default region. *)
Theorem handleClickCancel_back_to_ready (d : number) (evs : list Event) :
  state (exec handleClickCancel (session d evs)) = state (ready d) /\
  ws_regions (engine (exec handleClickCancel (session d evs)))
  = ws_regions (engine (ready d)).
Proof.
  rewrite (cancel_world _ (session_handle d evs)). cbn.
  destruct (run_keeps evs (ready d)) as (Ho & _).
  fold (session d evs) in Ho. unfold originalBounds in Ho.
  rewrite ready_world in Ho |- *. cbn in Ho |- *.
  injection Ho as -> ->. unfold cropRegion. split; reflexivity.
Qed.

(** X16. The look of the cut and cancel icons agrees with what a click on
    them does: each is rendered with the class [disabled] exactly when it
    has no click handler, and when it has one it is the cut (respectively
    the cancel) handler. *)
Theorem render_disabled_iff_unwired (s : State) :
  (cutOnClick (render s) = None <->
   cutIconClass (render s) = "fas fa-cut mzt-btn-actions disabled"%string) /\
  (cancelOnClick (render s) = None <->
   cancelIconClass (render s) = "fas fa-ban mzt-btn-actions disabled"%string)
  /\
  (cutOnClick (render s) = None \/
   cutOnClick (render s) = Some handleClickCut) /\
  (cancelOnClick (render s) = None \/
   cancelOnClick (render s) = Some handleClickCancel).
Proof.
  unfold render, onClick. cbn.
  destruct (wasRegionChanged s); cbn;
    (split; [split; intros H; (discriminate H || reflexivity) | ]);
    (split; [split; intros H; (discriminate H || reflexivity) | ]);
    split; auto.
Qed.

(** The default region can be as narrow as a collision: a track of
    40.25 s gets [20, 20.25], which the in-progress handler would take for
    two handles dragged into each other. *)
Example ready_40_25_is_narrow :
  let s := state (ready (lit 161 (-2))) in
  bounds s = (lit 20 0, lit 81 (-2)) /\
  (abs (cutStart s - cutEnd s) >? lit 1 (-2)) = false.
Proof. vm_compute. split; reflexivity. Qed.
